(** * Nexus addon lifecycle (src/nexus_addon/init.rs)

    Shallow embedding of the addon's load and unload paths.  The Rust code
    threads errors with [?] and performs side effects on the host; here
    a small state/error monad carries
    - the process-wide registry [EXE_MANAGER] (a once-cell), and
    - the trace of observable effects (host calls and log lines), in order.
    Host-provided operations whose outcome the code only consumes
    ([get_addon_dir], [create_dir_all], [ExeManager::new], [Mutex::lock],
    [launch_exe], [stop_exe]) are read from an environment record. *)

From Stdlib Require Import String List Bool Arith Lia.
Import ListNotations.
Open Scope string_scope.
Open Scope list_scope.

(** ** Rust's [Result] *)

Inductive result (A E : Type) : Type :=
| Ok (a : A)
| Err (e : E).
Arguments Ok {A E} a.
Arguments Err {A E} e.

(** [NexusError] (declared in nexus_addon/mod.rs).  [ManagerInitialization]
    carries the message built in init.rs; errors of the exe manager that
    [?] converts into a [NexusError] are kept as an opaque code. *)
Inductive NexusError : Type :=
| ManagerInitialization (msg : string)
| ExeManagerError (code : nat).

(** The exe manager, as far as init.rs observes it: an identity (to tell
    instances apart) and the persisted [launch_on_startup] flag. *)
Record ExeManager : Type := mkExeManager {
  manager_id : nat;
  launch_on_startup_flag : bool
}.

(** [*manager.launch_on_startup()] *)
Definition launch_on_startup (m : ExeManager) : bool := launch_on_startup_flag m.

(** ** Observable effects *)

Inductive event : Type :=
| GetAddonDir
| CreateDirAll
| ExeManagerNew
| RegistrySet
| LockManager
| LaunchExe
| LoadTextureFromMemory (name : string)
| AddQuickAccess
| RegisterKeybind
| SetupMainWindowRendering
| GetHinstance
| Attach
| StopExe
| Detatch
| LogInfo (msg : string)
| LogError (msg : string).

Definition event_eq_dec (a b : event) : {a = b} + {a <> b}.
Proof. decide equality; apply string_dec. Defined.

Definition event_eqb (a b : event) : bool :=
  if event_eq_dec a b then true else false.

(** ** Outcomes of the host and of the exe manager *)

Record Env : Type := mkEnv {
  (** [get_addon_dir("LOADER_public")] *)
  env_addon_dir : option string;
  (** [fs::create_dir_all(&addon_dir)], with the I/O error text *)
  env_create_dir : result unit string;
  (** [ExeManager::new(addon_dir)] *)
  env_manager_new : string -> result ExeManager nat;
  (** [exe_manager.lock()] in [initialize_nexus_addon]: [false] when the
      mutex is poisoned *)
  env_lock_init : bool;
  (** [manager.launch_exe()] *)
  env_launch_exe : result unit nat;
  (** [exe_manager_arc.lock()] in [cleanup_nexus_addon] *)
  env_lock_cleanup : bool;
  (** [exe_manager.stop_exe()] *)
  env_stop_exe : result unit nat
}.

(** ** The state/error monad *)

Record State : Type := mkState {
  registry : option ExeManager;
  trace : list event
}.

Definition M (A : Type) : Type := State -> result A NexusError * State.

Definition ret {A} (a : A) : M A := fun s => (Ok a, s).

Definition bind {A B} (m : M A) (k : A -> M B) : M B :=
  fun s =>
    match m s with
    | (Ok a, s') => k a s'
    | (Err e, s') => (Err e, s')
    end.

Notation "x <- m ;; k" := (bind m (fun x => k))
  (at level 61, m at next level, right associativity).
Notation "m ;; k" := (bind m (fun _ => k))
  (at level 61, right associativity).

(** Record one effect. *)
Definition emit (e : event) : M unit :=
  fun s => (Ok tt, mkState (registry s) (trace s ++ [e])).

(** The [?] operator on a [Result] whose error has already been mapped
    into a [NexusError]. *)
Definition try {A} (r : result A NexusError) : M A :=
  fun s => match r with Ok a => (Ok a, s) | Err e => (Err e, s) end.

Definition map_err {A E F} (f : E -> F) (r : result A E) : result A F :=
  match r with Ok a => Ok a | Err e => Err (f e) end.

Definition ok_or {A E} (e : E) (o : option A) : result A E :=
  match o with Some a => Ok a | None => Err e end.

(** Run a fallible computation and hand its [Result] to the caller, as
    [if let Err(e) = f() { ... }] does. *)
Definition attempt {A} (m : M A) : M (result A NexusError) :=
  fun s => let (r, s') := m s in (Ok r, s').

(** ** The registry [EXE_MANAGER] *)

Inductive RegistryError : Type :=
| AlreadyInitialized.

(** Modelled from the spec: the process-wide registry [EXE_MANAGER] is
    declared in nexus_addon/manager.rs, which is not in src/.  Its
    [set] installs the one shared instance exactly once per session; a
    second call fails with [AlreadyInitialized] and leaves the installed
    instance in place.  [get] returns it, or nothing before registration. *)
Definition EXE_MANAGER_set (m : ExeManager) : M (result unit RegistryError) :=
  fun s =>
    let tr := trace s ++ [RegistrySet] in
    match registry s with
    | None => (Ok (Ok tt), mkState (Some m) tr)
    | Some old => (Ok (Err AlreadyInitialized), mkState (Some old) tr)
    end.

Definition EXE_MANAGER_get : M (option ExeManager) :=
  fun s => (Ok (registry s), s).

(** The [Display] text of the [PoisonError] that [Mutex::lock] returns
    when the mutex is poisoned. *)
Definition poison_error_text : string :=
  "poisoned lock: another task failed inside".

(** [format!("Failed to lock exe manager: {e}")] *)
Definition init_lock_error_msg : string :=
  append "Failed to lock exe manager: " poison_error_text.

(** [format!("Failed to lock exe manager during cleanup: {e}")] *)
Definition cleanup_lock_error_msg : string :=
  append "Failed to lock exe manager during cleanup: " poison_error_text.

(** ** init.rs *)

Section Nexus.

Variable env : Env.

(** [load_addon_textures] *)
Definition load_addon_textures : M unit :=
  emit (LoadTextureFromMemory "BLISH_OVERLAY_LOADER_ICON");;
  emit (LoadTextureFromMemory "BLISH_OVERLAY_LOADER_ICON_HOVER");;
  emit (LogInfo "Addon textures loaded successfully");;
  ret tt.

(** [setup_quick_access] *)
Definition setup_quick_access : M unit :=
  emit AddQuickAccess;;
  emit (LogInfo "Quick access menu setup successfully");;
  ret tt.

(** [setup_keybinds] *)
Definition setup_keybinds : M unit :=
  emit RegisterKeybind;;
  emit (LogInfo "Keybinds setup successfully");;
  ret tt.

(** The block guarded by [exe_manager.lock()]: launch on startup if
    enabled, logging a failure of [launch_exe]. *)
Definition launch_on_startup_block (manager : ExeManager) : M unit :=
  emit LockManager;;
  try (if env_lock_init env then Ok tt
       else Err (ManagerInitialization init_lock_error_msg));;
  if launch_on_startup manager then
    emit LaunchExe;;
    match env_launch_exe env with
    | Ok _ => ret tt
    | Err _ => emit (LogError "Failed to launch exe on startup")
    end
  else ret tt.

(** [initialize_nexus_addon] *)
Definition initialize_nexus_addon : M unit :=
  emit GetAddonDir;;
  addon_dir <- try (ok_or (ManagerInitialization "Failed to get addon directory")
                          (env_addon_dir env));;
  emit CreateDirAll;;
  try (map_err (fun e => ManagerInitialization
                           (append "Failed to create addon directory: " e))
               (env_create_dir env));;
  emit ExeManagerNew;;
  exe_manager <- try (map_err ExeManagerError (env_manager_new env addon_dir));;
  set_result <- EXE_MANAGER_set exe_manager;;
  try (map_err (fun _ => ManagerInitialization "Failed to set global exe manager")
               set_result);;
  launch_on_startup_block exe_manager;;
  load_addon_textures;;
  setup_quick_access;;
  setup_keybinds;;
  emit SetupMainWindowRendering;;
  emit GetHinstance;;
  emit (LogInfo "Loading via Nexus - HMODULE/HINSTANCE");;
  emit Attach;;
  ret tt.

(** [nexus_load] *)
Definition nexus_load : M unit :=
  emit (LogInfo "Loading Blish HUD overlay loader addon");;
  r <- attempt initialize_nexus_addon;;
  match r with
  | Err _ => emit (LogError "Failed to initialize nexus addon")
  | Ok _ => emit (LogInfo "Blish HUD overlay loader addon loaded successfully")
  end.

(** [cleanup_nexus_addon] *)
Definition cleanup_nexus_addon : M unit :=
  reg <- EXE_MANAGER_get;;
  match reg with
  | Some _ =>
      emit LockManager;;
      try (if env_lock_cleanup env then Ok tt
           else Err (ManagerInitialization cleanup_lock_error_msg));;
      emit StopExe;;
      try (map_err ExeManagerError (env_stop_exe env))
  | None => ret tt
  end;;
  emit Detatch;;
  emit (LogInfo "Nexus addon cleanup completed successfully");;
  ret tt.

(** [nexus_unload] *)
Definition nexus_unload : M unit :=
  emit (LogInfo "Unloading Blish HUD overlay loader addon");;
  r <- attempt cleanup_nexus_addon;;
  match r with
  | Err _ => emit (LogError "Error during nexus addon cleanup")
  | Ok _ => ret tt
  end;;
  emit (LogInfo "Blish HUD overlay loader addon unloaded").

End Nexus.

(** A session starts with an empty registry and nothing observed. *)
Definition fresh (reg : option ExeManager) : State := mkState reg [].

(** ** The supervisor behind the shared reference (for concurrent triggers) *)

Inductive SupervisorState : Type :=
| Idle
| Running
| Stopping
| Stopped
| Failed.

Inductive SupervisorError : Type :=
| NoTargetConfigured
| AlreadyRunning
| LaunchFailed (os_error : nat)
| TerminationTimeout.

(** Besides its state and target, the supervisor keeps the process ids it
    has spawned so far, so duplicate processes are visible. *)
Record Supervisor : Type := mkSupervisor {
  sup_state : SupervisorState;
  executable_path : option string;
  spawned : list nat
}.

Section Launch.

(** Error returned by [launch] from [Failed]: the spec makes [Failed]
    terminal but does not name this error. *)
Variable failed_rejection : SupervisorError.

(** Modelled from the spec: [ExeManager::launch_exe] lives in
    nexus_addon/manager.rs, which is not in src/.  [launch] requires
    [Idle] or [Stopped]; it is rejected with [AlreadyRunning] while
    [Running] or [Stopping] and with [NoTargetConfigured] without an
    executable path; otherwise it spawns the executable, recording the
    process and moving to [Running], or moves to [Failed] with
    [LaunchFailed] when the spawn fails. *)
Definition launch (spawn : string -> result nat nat) (s : Supervisor)
  : Supervisor * result unit SupervisorError :=
  match sup_state s with
  | Running | Stopping => (s, Err AlreadyRunning)
  | Failed => (s, Err failed_rejection)
  | Idle | Stopped =>
      match executable_path s with
      | None => (s, Err NoTargetConfigured)
      | Some path =>
          match spawn path with
          | Ok pid => (mkSupervisor Running (Some path) (spawned s ++ [pid]), Ok tt)
          | Err e => (mkSupervisor Failed (Some path) (spawned s), Err (LaunchFailed e))
          end
      end
  end.

(** Every caller locks the [Arc<Mutex<ExeManager>>] for the whole call, so
    two concurrent calls take effect one after the other, in either order.
    [serialise f g s] runs [f] then [g] and returns both results in the
    order the calls were made. *)
Definition serialise {R} (f g : Supervisor -> Supervisor * R) (s : Supervisor)
  : Supervisor * R * R :=
  let (s1, r1) := f s in
  let (s2, r2) := g s1 in
  (s2, r1, r2).

End Launch.



(** ** Sessions: hooks run one after the other *)

(** A load followed by an unload, from an empty registry. *)
Definition load_then_unload (env_load env_unload : Env) : result unit NexusError * State :=
  (nexus_load env_load;; nexus_unload env_unload) (fresh None).

(** The load hook run twice in one session. *)
Definition load_twice (env1 env2 : Env) : result unit NexusError * State :=
  (nexus_load env1;; nexus_load env2) (fresh None).

(** ** Reading traces *)

Definition occurs (e : event) (tr : list event) : bool :=
  existsb (event_eqb e) tr.

(** [infixb pat l]: [pat] occurs as a contiguous block in [l]. *)
Fixpoint infixb (pat l : list event) : bool :=
  match l with
  | [] => match pat with [] => true | _ => false end
  | x :: l' =>
      (forallb (fun '(a, b) => event_eqb a b) (combine pat (List.firstn (List.length pat) l))
       && Nat.leb (List.length pat) (List.length l))
      || infixb pat l'
  end.

(** The parts of the addon set up after the exe manager. *)
Definition rest_of_addon : list event :=
  [LoadTextureFromMemory "BLISH_OVERLAY_LOADER_ICON";
   LoadTextureFromMemory "BLISH_OVERLAY_LOADER_ICON_HOVER";
   AddQuickAccess; RegisterKeybind; SetupMainWindowRendering; Attach].

Definition rest_loaded (tr : list event) : Prop :=
  forall e, In e rest_of_addon -> In e tr.

Definition rest_skipped (tr : list event) : Prop :=
  forall e, In e rest_of_addon -> ~ In e tr.

(** A failure while building the process-supervision subsystem: no addon
    directory, [create_dir_all] failing, or [ExeManager::new] failing. *)
Definition construction_fails (env : Env) : Prop :=
  env_addon_dir env = None
  \/ (exists e, env_create_dir env = Err e)
  \/ (exists d c, env_addon_dir env = Some d /\ env_manager_new env d = Err c).

(** Reference environments. *)
Definition good_env (flag : bool) : Env :=
  mkEnv (Some "addon/LOADER_public") (Ok tt)
        (fun _ => Ok (mkExeManager 1 flag)) true (Ok tt) true (Ok tt).

Definition env_without_dir : Env :=
  mkEnv None (Ok tt) (fun _ => Ok (mkExeManager 1 false)) true (Ok tt) true (Ok tt).

(** * Lemmas about traces *)

Lemma event_eqb_true (a b : event) : event_eqb a b = true <-> a = b.
Proof. unfold event_eqb; destruct (event_eq_dec a b); split; congruence. Qed.

Lemma occurs_In (e : event) (tr : list event) : occurs e tr = true <-> In e tr.
Proof.
  unfold occurs; rewrite existsb_exists; split.
  - intros [x [Hx He]]; apply event_eqb_true in He; subst; exact Hx.
  - intros H; exists e; split; [exact H | apply event_eqb_true; reflexivity].
Qed.

Lemma occurs_not_In (e : event) (tr : list event) : occurs e tr = false -> ~ In e tr.
Proof. intros H Hin; apply occurs_In in Hin; congruence. Qed.

Lemma rest_loaded_check (tr : list event) :
  forallb (fun e => occurs e tr) rest_of_addon = true -> rest_loaded tr.
Proof.
  intros H e He; rewrite forallb_forall in H; apply occurs_In; auto.
Qed.

Lemma rest_skipped_check (tr : list event) :
  forallb (fun e => negb (occurs e tr)) rest_of_addon = true -> rest_skipped tr.
Proof.
  intros H e He; rewrite forallb_forall in H; apply occurs_not_In.
  specialize (H e He); destruct (occurs e tr); auto; discriminate.
Qed.

Lemma firstn_prefix (pat k : list event) :
  forallb (fun '(a, b) => event_eqb a b) (combine pat (List.firstn (List.length pat) k)) = true ->
  List.length pat <= List.length k ->
  List.firstn (List.length pat) k = pat.
Proof.
  revert k; induction pat as [|a pat IHp]; intros k Hall Hlen; [reflexivity|].
  destruct k as [|b k]; simpl in Hlen; [lia|].
  simpl in Hall; apply andb_true_iff in Hall; destruct Hall as [Hab Hall].
  apply event_eqb_true in Hab; subst b; simpl.
  rewrite IHp; [reflexivity | exact Hall | lia].
Qed.

Lemma infixb_sound (pat l : list event) :
  infixb pat l = true -> exists p q, l = p ++ pat ++ q.
Proof.
  revert pat; induction l as [|x l IH]; intros pat H; simpl in H.
  - destruct pat; [exists [], []; reflexivity | discriminate].
  - apply orb_true_iff in H; destruct H as [H | H].
    + apply andb_true_iff in H; destruct H as [Hall Hlen].
      apply Nat.leb_le in Hlen.
      exists [], (List.skipn (List.length pat) (x :: l)); simpl.
      assert (Hpre : List.firstn (List.length pat) (x :: l) = pat)
        by (apply firstn_prefix; [exact Hall | exact Hlen]).
      rewrite <- Hpre at 1; rewrite List.firstn_skipn; reflexivity.
    + destruct (IH pat H) as [p [q Hpq]]; exists (x :: p), q; rewrite Hpq; reflexivity.
Qed.

(** Case analysis on every outcome the environment can produce. *)
Ltac split_env env :=
  destruct env as [[d|] [[]|ce] mn [] [[]|le] [] [[]|se]]; cbn;
  try (destruct (mn d) as [[mid [|]]|mc]; cbn).

(** * Claims *)

(** Close the trace obligations left once the trace is a concrete list. *)
Ltac trace_facts :=
  repeat split;
  first
    [ reflexivity
    | apply rest_skipped_check; vm_compute; reflexivity
    | apply rest_loaded_check; vm_compute; reflexivity
    | apply occurs_In; vm_compute; reflexivity
    | apply occurs_not_In; vm_compute; reflexivity
    | idtac ].

(** C1 (as stated): when building the process-supervision subsystem
    fails during load, the rest of the addon (textures, quick access,
    keybinds, UI, attach) still loads.  False: without an addon directory
    [nexus_load] sets none of it up. *)
Lemma C1_rest_not_loaded_counterexample :
  ~ (forall env reg, construction_fails env ->
       rest_loaded (trace (snd (nexus_load env (fresh reg))))).
Proof.
  intros H.
  specialize (H env_without_dir None (or_introl eq_refl) Attach).
  apply (occurs_not_In Attach (trace (snd (nexus_load env_without_dir (fresh None))))).
  - vm_compute; reflexivity.
  - apply H; simpl; tauto.
Qed.

(** C1 (amended): when building the process-supervision subsystem fails
    (no addon directory, [create_dir_all] failing or [ExeManager::new]
    failing), the whole initialization is abandoned: [nexus_load] logs
    the error and returns normally, the registry is left as it was (so
    [get] still returns nothing if nothing was registered before), and
    none of textures, quick access, keybinds, UI or attach is set up. *)
Theorem nexus_load_construction_failure (env : Env) (reg : option ExeManager) :
  construction_fails env ->
  fst (nexus_load env (fresh reg)) = Ok tt
  /\ registry (snd (nexus_load env (fresh reg))) = reg
  /\ rest_skipped (trace (snd (nexus_load env (fresh reg))))
  /\ In (LogError "Failed to initialize nexus addon")
        (trace (snd (nexus_load env (fresh reg)))).
Proof.
  destruct env as [ad cd mn li le lc se]; unfold construction_fails; cbn.
  intros [-> | [[e ->] | [d [c [-> Hmn]]]]]; cbn -[In].
  - trace_facts.
  - destruct ad; cbn -[In]; trace_facts.
  - destruct cd as [[]|e]; cbv -[In rest_skipped]; [rewrite Hmn; cbv -[In rest_skipped]|];
      trace_facts.
Qed.

Lemma nexus_load_construction_failure_witness :
  construction_fails env_without_dir
  /\ fst (nexus_load env_without_dir (fresh None)) = Ok tt
  /\ registry (snd (nexus_load env_without_dir (fresh None))) = None
  /\ rest_skipped (trace (snd (nexus_load env_without_dir (fresh None))))
  /\ In (LogError "Failed to initialize nexus addon")
        (trace (snd (nexus_load env_without_dir (fresh None)))).
Proof.
  assert (H : construction_fails env_without_dir) by (left; reflexivity).
  split; [exact H | exact (nexus_load_construction_failure env_without_dir None H)].
Defined.

(** C2: [nexus_unload] fetches the registered exe manager and calls
    [stop_exe] on it (when its mutex can be locked); whatever [stop_exe]
    or the lock returns, [nexus_unload] itself completes without an
    error and leaves the registry alone. *)
Theorem nexus_unload_swallows_errors (env : Env) (reg : option ExeManager) :
  fst (nexus_unload env (fresh reg)) = Ok tt
  /\ registry (snd (nexus_unload env (fresh reg))) = reg
  /\ (In StopExe (trace (snd (nexus_unload env (fresh reg))))
      <-> reg <> None /\ env_lock_cleanup env = true).
Proof.
  destruct env as [ad cd mn li le [] [[]|se]], reg as [m|];
    (split; [reflexivity | split; [reflexivity |]]);
    rewrite <- occurs_In; vm_compute; intuition congruence.
Qed.

(** C7: the only place in init.rs that fetches the shared instance is
    [cleanup_nexus_addon].  With an uninitialized registry it skips the
    lock and [stop_exe], still detaches, and neither it nor
    [nexus_unload] reports an error. *)
Theorem unload_without_registry (env : Env) :
  cleanup_nexus_addon env (fresh None)
    = (Ok tt, mkState None
                [Detatch; LogInfo "Nexus addon cleanup completed successfully"])
  /\ nexus_unload env (fresh None)
    = (Ok tt, mkState None
                [LogInfo "Unloading Blish HUD overlay loader addon";
                 Detatch; LogInfo "Nexus addon cleanup completed successfully";
                 LogInfo "Blish HUD overlay loader addon unloaded"]).
Proof. split; reflexivity. Qed.

(** C9: when the manager's mutex cannot be locked during cleanup, or
    [stop_exe] returns an error, [cleanup_nexus_addon] returns that error
    at once (the lock error with its [PoisonError] text, or the error of
    [stop_exe]) and [crate::detatch()] is not called. *)
Theorem cleanup_error_skips_detatch (env : Env) (m : ExeManager) :
  env_lock_cleanup env = false \/ (exists c, env_stop_exe env = Err c) ->
  ((env_lock_cleanup env = false
    /\ fst (cleanup_nexus_addon env (fresh (Some m)))
       = Err (ManagerInitialization cleanup_lock_error_msg))
   \/ (exists c, env_lock_cleanup env = true
                 /\ env_stop_exe env = Err c
                 /\ fst (cleanup_nexus_addon env (fresh (Some m))) = Err (ExeManagerError c)))
  /\ ~ In Detatch (trace (snd (cleanup_nexus_addon env (fresh (Some m))))).
Proof.
  destruct env as [ad cd mn li le lc se]; cbn.
  intros [-> | [c ->]].
  - split; [left; split; reflexivity | apply occurs_not_In; vm_compute; reflexivity].
  - destruct lc.
    + split; [right; exists c; repeat split | apply occurs_not_In; vm_compute; reflexivity].
    + split; [left; split; reflexivity | apply occurs_not_In; vm_compute; reflexivity].
Qed.

Definition env_poisoned_cleanup : Env :=
  mkEnv (Some "addon/LOADER_public") (Ok tt)
        (fun _ => Ok (mkExeManager 1 false)) true (Ok tt) false (Ok tt).

Definition env_stop_fails : Env :=
  mkEnv (Some "addon/LOADER_public") (Ok tt)
        (fun _ => Ok (mkExeManager 1 false)) true (Ok tt) true (Err 5).

Lemma cleanup_error_skips_detatch_witness :
  (fst (cleanup_nexus_addon env_poisoned_cleanup (fresh (Some (mkExeManager 1 false))))
     = Err (ManagerInitialization cleanup_lock_error_msg)
   /\ ~ In Detatch (trace (snd (cleanup_nexus_addon env_poisoned_cleanup
                                   (fresh (Some (mkExeManager 1 false)))))))
  /\ (fst (cleanup_nexus_addon env_stop_fails (fresh (Some (mkExeManager 1 false))))
        = Err (ExeManagerError 5)
      /\ ~ In Detatch (trace (snd (cleanup_nexus_addon env_stop_fails
                                      (fresh (Some (mkExeManager 1 false))))))).
Proof.
  split.
  - destruct (cleanup_error_skips_detatch env_poisoned_cleanup (mkExeManager 1 false)
                (or_introl eq_refl)) as [[[_ H] | (c & Hl & _)] Hd].
    + split; [exact H | exact Hd].
    + discriminate Hl.
  - destruct (cleanup_error_skips_detatch env_stop_fails (mkExeManager 1 false)
                (or_intror (ex_intro _ 5 eq_refl))) as [[[Hl _] | (c & _ & Hs & H)] Hd].
    + discriminate Hl.
    + injection Hs as <-; split; [exact H | exact Hd].
Defined.

(** Case analysis on the outcomes [initialize_nexus_addon] consumes. *)
Ltac split_init_env env reg :=
  destruct env as [[d|] [[]|ce] mn [] [[]|le] lc se], reg as [m0|];
  cbv -[In app];
  try (destruct (mn d) as [[mid [|]]|mc] eqn:Hmn; cbv -[In app]).

(** Discharge [In e tr -> P] by computing whether [e] occurs in [tr]. *)
Ltac in_trace_cases :=
  intros Hin; apply occurs_In in Hin; vm_compute in Hin;
  first [ discriminate Hin | clear Hin ].

(** C3: during load the exe manager (which loads the configuration) is
    built before it is registered; the registry is set at most once; and
    the automatic launch comes only after a successful registration,
    right after the manager's mutex is locked. *)
Theorem load_order (env : Env) (reg : option ExeManager) :
  count_occ event_eq_dec (trace (snd (initialize_nexus_addon env (fresh reg)))) RegistrySet <= 1
  /\ (In RegistrySet (trace (snd (initialize_nexus_addon env (fresh reg)))) ->
      exists p q, trace (snd (initialize_nexus_addon env (fresh reg)))
                  = p ++ [ExeManagerNew; RegistrySet] ++ q)
  /\ (In LaunchExe (trace (snd (initialize_nexus_addon env (fresh reg)))) ->
      reg = None
      /\ registry (snd (initialize_nexus_addon env (fresh reg))) <> None
      /\ exists p q, trace (snd (initialize_nexus_addon env (fresh reg)))
                     = p ++ [ExeManagerNew; RegistrySet; LockManager; LaunchExe] ++ q).
Proof.
  split_init_env env reg;
    (split; [auto | split; in_trace_cases]);
    repeat split; try congruence;
    apply infixb_sound; vm_compute; reflexivity.
Qed.

(** C4: once [EXE_MANAGER] holds an instance, setting it again fails with
    [AlreadyInitialized] and [get] still returns the original instance;
    a second [initialize_nexus_addon] in the same session therefore fails
    and leaves the installed manager in place. *)
Theorem second_initialize_keeps_instance
  (m0 m : ExeManager) (tr : list event) (env : Env) :
  EXE_MANAGER_set m (mkState (Some m0) tr)
    = (Ok (Err AlreadyInitialized), mkState (Some m0) (tr ++ [RegistrySet]))
  /\ fst (EXE_MANAGER_get (snd (EXE_MANAGER_set m (mkState (Some m0) tr))))
     = Ok (Some m0)
  /\ (exists e, fst (initialize_nexus_addon env (mkState (Some m0) tr)) = Err e)
  /\ registry (snd (initialize_nexus_addon env (mkState (Some m0) tr))) = Some m0.
Proof.
  split; [reflexivity | split; [reflexivity |]].
  destruct env as [[d|] [[]|ce] mn li le lc se]; cbv -[app];
    try (destruct (mn d) as [mm|mc]; cbv -[app]);
    split; solve [eexists; reflexivity | reflexivity].
Qed.

(** C5: the load sequence calls [launch_exe] exactly when it reaches the
    auto-launch step (addon directory found and created, manager built and
    registered, its mutex locked) and the manager's [launch_on_startup]
    flag is true at that point. *)
Theorem auto_launch_iff_flag (env : Env) (reg : option ExeManager) :
  In LaunchExe (trace (snd (initialize_nexus_addon env (fresh reg))))
  <-> exists d m, env_addon_dir env = Some d
                  /\ env_create_dir env = Ok tt
                  /\ env_manager_new env d = Ok m
                  /\ reg = None
                  /\ env_lock_init env = true
                  /\ launch_on_startup m = true.
Proof.
  split_init_env env reg; rewrite <- occurs_In; vm_compute;
    split; intros H;
    solve
      [ reflexivity
      | discriminate H
      | destruct H as (d' & m' & H1 & H2 & H3 & H4 & H5 & H6);
        try discriminate;
        injection H1 as <-; rewrite Hmn in H3;
        first [ discriminate H3 | injection H3 as <-; cbn in H6; discriminate ]
      | eexists _, _; repeat split; first [eassumption | reflexivity] ].
Qed.

(** C6: when the automatic launch at startup fails, the failure is only
    logged: textures, quick access, keybinds, UI and attach are still set
    up, [initialize_nexus_addon] succeeds and [nexus_load] reports the
    addon as loaded. *)
Theorem auto_launch_failure_logged
  (env : Env) (d : string) (m : ExeManager) (c : nat) :
  env_addon_dir env = Some d ->
  env_create_dir env = Ok tt ->
  env_manager_new env d = Ok m ->
  env_lock_init env = true ->
  launch_on_startup m = true ->
  env_launch_exe env = Err c ->
  fst (initialize_nexus_addon env (fresh None)) = Ok tt
  /\ In LaunchExe (trace (snd (initialize_nexus_addon env (fresh None))))
  /\ In (LogError "Failed to launch exe on startup")
        (trace (snd (initialize_nexus_addon env (fresh None))))
  /\ rest_loaded (trace (snd (initialize_nexus_addon env (fresh None))))
  /\ In (LogInfo "Blish HUD overlay loader addon loaded successfully")
        (trace (snd (nexus_load env (fresh None)))).
Proof.
  destruct env as [ad cd mn li le lc se], m as [mid flag]; cbn.
  intros -> -> Hmn -> -> ->.
  cbv -[In rest_loaded]; rewrite Hmn; cbv -[In rest_loaded].
  trace_facts.
Qed.

Definition env_launch_fails : Env :=
  mkEnv (Some "addon/LOADER_public") (Ok tt)
        (fun _ => Ok (mkExeManager 1 true)) true (Err 2) true (Ok tt).

Lemma auto_launch_failure_logged_witness :
  fst (initialize_nexus_addon env_launch_fails (fresh None)) = Ok tt
  /\ In LaunchExe (trace (snd (initialize_nexus_addon env_launch_fails (fresh None))))
  /\ In (LogError "Failed to launch exe on startup")
        (trace (snd (initialize_nexus_addon env_launch_fails (fresh None))))
  /\ rest_loaded (trace (snd (initialize_nexus_addon env_launch_fails (fresh None))))
  /\ In (LogInfo "Blish HUD overlay loader addon loaded successfully")
        (trace (snd (nexus_load env_launch_fails (fresh None)))).
Proof.
  apply (auto_launch_failure_logged env_launch_fails "addon/LOADER_public"
           (mkExeManager 1 true) 2); reflexivity.
Defined.

(** C10: once the manager is built and registered, a poisoned mutex at
    the auto-launch step aborts the whole initialization with the
    [ManagerInitialization] error "Failed to lock exe manager: " followed
    by the [PoisonError] text (nothing after it is set up), whereas
    an error of [launch_exe] is tolerated and initialization succeeds. *)
Theorem init_lock_failure_aborts
  (env : Env) (d : string) (m : ExeManager) :
  env_addon_dir env = Some d ->
  env_create_dir env = Ok tt ->
  env_manager_new env d = Ok m ->
  (env_lock_init env = false ->
     fst (initialize_nexus_addon env (fresh None))
       = Err (ManagerInitialization init_lock_error_msg)
     /\ ~ In LaunchExe (trace (snd (initialize_nexus_addon env (fresh None))))
     /\ rest_skipped (trace (snd (initialize_nexus_addon env (fresh None)))))
  /\ (env_lock_init env = true -> forall c, env_launch_exe env = Err c ->
     fst (initialize_nexus_addon env (fresh None)) = Ok tt
     /\ rest_loaded (trace (snd (initialize_nexus_addon env (fresh None))))).
Proof.
  destruct env as [ad cd mn li le lc se], m as [mid flag]; cbn.
  intros -> -> Hmn; split.
  - intros ->; cbv -[In rest_skipped]; rewrite Hmn;
      destruct flag; cbv -[In rest_skipped]; trace_facts.
  - intros -> c ->; cbv -[In rest_loaded]; rewrite Hmn;
      destruct flag; cbv -[In rest_loaded]; trace_facts.
Qed.

Definition env_init_poisoned : Env :=
  mkEnv (Some "addon/LOADER_public") (Ok tt)
        (fun _ => Ok (mkExeManager 1 true)) false (Err 2) true (Ok tt).

Lemma init_lock_failure_aborts_witness :
  fst (initialize_nexus_addon env_init_poisoned (fresh None))
    = Err (ManagerInitialization init_lock_error_msg)
  /\ ~ In LaunchExe (trace (snd (initialize_nexus_addon env_init_poisoned (fresh None))))
  /\ rest_skipped (trace (snd (initialize_nexus_addon env_init_poisoned (fresh None)))).
Proof.
  destruct (init_lock_failure_aborts env_init_poisoned "addon/LOADER_public"
              (mkExeManager 1 true) eq_refl eq_refl eq_refl) as [H _].
  apply H; reflexivity.
Defined.

(** Exactly one of two results is a success and the other an
    [AlreadyRunning] rejection, and exactly one process was spawned. *)
Definition one_spawn_one_rejection
  (before after : Supervisor) (r1 r2 : result unit SupervisorError) : Prop :=
  ((r1 = Ok tt /\ r2 = Err AlreadyRunning) \/ (r1 = Err AlreadyRunning /\ r2 = Ok tt))
  /\ List.length (spawned after) = S (List.length (spawned before)).

(** C8: two callers that launch through the shared, mutex-guarded
    supervisor (from [Idle] or [Stopped], with a target whose spawn
    succeeds) end up, in either order the mutex lets them in, with one
    successful spawn and one [AlreadyRunning] rejection. *)
Theorem concurrent_launch_single_spawn
  (rej : SupervisorError) (spawn1 spawn2 : string -> result nat nat)
  (s : Supervisor) (path : string) (pid1 pid2 : nat) :
  sup_state s = Idle \/ sup_state s = Stopped ->
  executable_path s = Some path ->
  spawn1 path = Ok pid1 ->
  spawn2 path = Ok pid2 ->
  (let '(after, r1, r2) := serialise (launch rej spawn1) (launch rej spawn2) s in
   one_spawn_one_rejection s after r1 r2)
  /\ (let '(after, r2, r1) := serialise (launch rej spawn2) (launch rej spawn1) s in
      one_spawn_one_rejection s after r1 r2).
Proof.
  destruct s as [st p sp]; cbn.
  intros Hst -> H1 H2.
  unfold serialise, launch; cbn.
  destruct Hst as [-> | ->]; rewrite H1, H2; cbn;
    unfold one_spawn_one_rejection; cbn; rewrite !length_app; cbn;
    (split; split;
     [ first [left; split; reflexivity | right; split; reflexivity] | lia
     | first [left; split; reflexivity | right; split; reflexivity] | lia ]).
Qed.

Definition idle_supervisor : Supervisor :=
  mkSupervisor Idle (Some "Blish HUD.exe") [].

Lemma concurrent_launch_single_spawn_witness :
  (let '(after, r1, r2) :=
     serialise (launch TerminationTimeout (fun _ => Ok 10))
               (launch TerminationTimeout (fun _ => Ok 11)) idle_supervisor in
   one_spawn_one_rejection idle_supervisor after r1 r2)
  /\ (let '(after, r2, r1) :=
        serialise (launch TerminationTimeout (fun _ => Ok 11))
                  (launch TerminationTimeout (fun _ => Ok 10)) idle_supervisor in
      one_spawn_one_rejection idle_supervisor after r1 r2).
Proof.
  apply (concurrent_launch_single_spawn TerminationTimeout (fun _ => Ok 10)
           (fun _ => Ok 11) idle_supervisor "Blish HUD.exe" 10 11);
    first [left; reflexivity | reflexivity].
Defined.

(** * Further properties of init.rs *)

(** Settle an equivalence, or a goal, whose two sides are concrete. *)
Ltac concrete_iff :=
  split; intro;
  first [ reflexivity | discriminate | congruence | (intro; discriminate) ].

(** [initialize_nexus_addon] succeeds exactly when the addon directory is
    found and created, [ExeManager::new] succeeds, the registry was still
    empty, and the manager's mutex can be locked; a failing [launch_exe]
    does not matter. *)
Theorem initialize_success_iff (env : Env) (reg : option ExeManager) :
  fst (initialize_nexus_addon env (fresh reg)) = Ok tt
  <-> exists d m, env_addon_dir env = Some d
                  /\ env_create_dir env = Ok tt
                  /\ env_manager_new env d = Ok m
                  /\ reg = None
                  /\ env_lock_init env = true.
Proof.
  split_init_env env reg; split; intros H;
    solve
      [ reflexivity
      | discriminate H
      | destruct H as (d' & m' & H1 & H2 & H3 & H4 & H5);
        try discriminate;
        injection H1 as <-; rewrite Hmn in H3; discriminate H3
      | eexists _, _; repeat split; first [eassumption | reflexivity] ].
Qed.

(** The registry after a load is either what it was before, or (when it
    was empty and the manager could be built) the manager that
    [ExeManager::new] returned; this holds also when initialization
    fails after registering it. *)
Theorem initialize_registry_effect (env : Env) (reg : option ExeManager) :
  registry (snd (initialize_nexus_addon env (fresh reg))) = reg
  \/ (reg = None
      /\ exists d m, env_addon_dir env = Some d
                     /\ env_manager_new env d = Ok m
                     /\ registry (snd (initialize_nexus_addon env (fresh reg))) = Some m).
Proof.
  split_init_env env reg;
    first
      [ left; reflexivity
      | right; split; [reflexivity | eexists _, _; repeat split; first [eassumption | reflexivity]] ].
Qed.

(** [crate::attach] is the last step of a load: it is reached exactly
    when initialization succeeds, and then nothing follows it. *)
Theorem attach_last_iff_success (env : Env) (reg : option ExeManager) :
  (In Attach (trace (snd (initialize_nexus_addon env (fresh reg))))
   <-> fst (initialize_nexus_addon env (fresh reg)) = Ok tt)
  /\ (fst (initialize_nexus_addon env (fresh reg)) = Ok tt ->
      exists p, trace (snd (initialize_nexus_addon env (fresh reg))) = p ++ [Attach]).
Proof.
  split_init_env env reg;
    (split; [rewrite <- occurs_In; vm_compute; concrete_iff |]);
    intros H; try discriminate H;
    eexists; reflexivity.
Qed.

(** Choose the disjunct of a concrete goal that holds. *)
Ltac pick_disjunct :=
  first
    [ solve [ reflexivity
            | eexists; split; reflexivity
            | eexists _, _; repeat split; first [eassumption | reflexivity] ]
    | left; pick_disjunct
    | right; pick_disjunct ].

(** Every error [initialize_nexus_addon] returns comes from one of its
    five fallible steps, with the message that step builds (or, for
    [ExeManager::new], the constructor's own error). *)
Theorem initialize_error_kinds (env : Env) (reg : option ExeManager) (e : NexusError) :
  fst (initialize_nexus_addon env (fresh reg)) = Err e ->
  e = ManagerInitialization "Failed to get addon directory"
  \/ (exists ce, env_create_dir env = Err ce
                 /\ e = ManagerInitialization (append "Failed to create addon directory: " ce))
  \/ (exists d c, env_addon_dir env = Some d /\ env_manager_new env d = Err c
                  /\ e = ExeManagerError c)
  \/ e = ManagerInitialization "Failed to set global exe manager"
  \/ e = ManagerInitialization init_lock_error_msg.
Proof.
  split_init_env env reg; intros H; try discriminate H;
    injection H as <-; pick_disjunct.
Qed.

Lemma initialize_error_kinds_witness :
  fst (initialize_nexus_addon env_without_dir (fresh None))
    = Err (ManagerInitialization "Failed to get addon directory")
  /\ (ManagerInitialization "Failed to get addon directory"
        = ManagerInitialization "Failed to get addon directory"
      \/ (exists ce, env_create_dir env_without_dir = Err ce
            /\ ManagerInitialization "Failed to get addon directory"
               = ManagerInitialization (append "Failed to create addon directory: " ce))
      \/ (exists d c, env_addon_dir env_without_dir = Some d
            /\ env_manager_new env_without_dir d = Err c
            /\ ManagerInitialization "Failed to get addon directory" = ExeManagerError c)
      \/ ManagerInitialization "Failed to get addon directory"
         = ManagerInitialization "Failed to set global exe manager"
      \/ ManagerInitialization "Failed to get addon directory"
         = ManagerInitialization init_lock_error_msg).
Proof.
  assert (H : fst (initialize_nexus_addon env_without_dir (fresh None))
              = Err (ManagerInitialization "Failed to get addon directory"))
    by reflexivity.
  split; [exact H | exact (initialize_error_kinds env_without_dir None _ H)].
Defined.

(** [cleanup_nexus_addon] leaves the registry alone, calls
    [crate::detatch] exactly when it succeeds, and fails only with the
    cleanup lock error or with the error of [stop_exe]. *)
Theorem cleanup_outcome (env : Env) (reg : option ExeManager) :
  registry (snd (cleanup_nexus_addon env (fresh reg))) = reg
  /\ (In Detatch (trace (snd (cleanup_nexus_addon env (fresh reg))))
      <-> fst (cleanup_nexus_addon env (fresh reg)) = Ok tt)
  /\ (forall e, fst (cleanup_nexus_addon env (fresh reg)) = Err e ->
      e = ManagerInitialization cleanup_lock_error_msg
      \/ exists c, env_stop_exe env = Err c /\ e = ExeManagerError c).
Proof.
  destruct env as [ad cd mn li le [] [[]|se]], reg as [m|];
    (split; [reflexivity | split; [rewrite <- occurs_In; vm_compute; concrete_iff |]]);
    intros e H; vm_compute in H; try discriminate H;
    injection H as <-; pick_disjunct.
Qed.

(** ** Framing: a computation only appends to the trace it starts from *)

Definition frame {A} (m : M A) : Prop :=
  forall reg tr,
    m (mkState reg tr)
    = (fst (m (mkState reg [])),
       mkState (registry (snd (m (mkState reg []))))
               (tr ++ trace (snd (m (mkState reg []))))).

Lemma frame_ret {A} (a : A) : frame (ret a).
Proof. intros reg tr; unfold ret; cbn; rewrite app_nil_r; reflexivity. Qed.

Lemma frame_emit (e : event) : frame (emit e).
Proof. intros reg tr; reflexivity. Qed.

Lemma frame_try {A} (r : result A NexusError) : frame (try r).
Proof. intros reg tr; destruct r; cbn; rewrite app_nil_r; reflexivity. Qed.

Lemma frame_set (m : ExeManager) : frame (EXE_MANAGER_set m).
Proof. intros [m0|] tr; reflexivity. Qed.

Lemma frame_get : frame EXE_MANAGER_get.
Proof. intros reg tr; cbn; rewrite app_nil_r; reflexivity. Qed.

Lemma frame_attempt {A} (m : M A) : frame m -> frame (attempt m).
Proof.
  intros Hm reg tr; unfold attempt; rewrite Hm.
  destruct (m (mkState reg [])) as [r s]; reflexivity.
Qed.

Lemma frame_bind {A B} (m : M A) (k : A -> M B) :
  frame m -> (forall a, frame (k a)) -> frame (bind m k).
Proof.
  intros Hm Hk reg tr; unfold bind; rewrite Hm.
  destruct (m (mkState reg [])) as [[a|e] [reg' t']]; cbn.
  - rewrite (Hk a reg' (tr ++ t')), (Hk a reg' t'); cbn.
    rewrite app_assoc; reflexivity.
  - reflexivity.
Qed.

Ltac prove_frame :=
  repeat
    first
      [ apply frame_bind; [| intro] | apply frame_attempt
      | apply frame_emit | apply frame_ret | apply frame_try
      | apply frame_set | apply frame_get
      | match goal with
        | |- frame (match ?x with _ => _ end) => destruct x
        | |- frame (if ?x then _ else _) => destruct x
        end ].

Lemma frame_nexus_load (env : Env) : frame (nexus_load env).
Proof.
  unfold nexus_load, initialize_nexus_addon, launch_on_startup_block,
    load_addon_textures, setup_quick_access, setup_keybinds.
  prove_frame.
Qed.

Lemma frame_nexus_unload (env : Env) : frame (nexus_unload env).
Proof. unfold nexus_unload, cleanup_nexus_addon; prove_frame. Qed.

(** What one load does, in the terms the session theorems need. *)
Lemma nexus_load_summary (env : Env) (reg : option ExeManager) :
  fst (nexus_load env (fresh reg)) = Ok tt
  /\ count_occ event_eq_dec (trace (snd (nexus_load env (fresh reg)))) LaunchExe <= 1
  /\ count_occ event_eq_dec (trace (snd (nexus_load env (fresh reg)))) Attach <= 1
  /\ (count_occ event_eq_dec (trace (snd (nexus_load env (fresh reg)))) LaunchExe
      + count_occ event_eq_dec (trace (snd (nexus_load env (fresh reg)))) Attach <> 0 ->
      reg = None /\ registry (snd (nexus_load env (fresh reg))) <> None)
  /\ (forall m, reg = Some m -> registry (snd (nexus_load env (fresh reg))) = Some m)
  /\ ~ In StopExe (trace (snd (nexus_load env (fresh reg)))).
Proof.
  split_init_env env reg;
    (split; [reflexivity | split; [auto | split; [auto | split; [| split]]]]);
    first
      [ intros H; first [ exfalso; apply H; reflexivity | split; congruence ]
      | intros m H; first [ discriminate H | exact H | congruence ]
      | apply occurs_not_In; vm_compute; reflexivity ].
Qed.

(** A load from an empty registry registers a manager exactly when the
    addon directory is found and created and the manager is built. *)
Lemma nexus_load_registers (env : Env) :
  registry (snd (nexus_load env (fresh None))) <> None
  <-> exists d m, env_addon_dir env = Some d
                  /\ env_create_dir env = Ok tt
                  /\ env_manager_new env d = Ok m.
Proof.
  destruct env as [[d|] [[]|ce] mn [] [[]|le] lc se];
  cbv -[In app];
  try (destruct (mn d) as [[mid [|]]|mc] eqn:Hmn; cbv -[In app]);
  split; intros H;
    solve
      [ intro Hx; discriminate Hx
      | exfalso; apply H; reflexivity
      | destruct H as (d' & m' & H1 & H2 & H3);
        try discriminate;
        injection H1 as <-; rewrite Hmn in H3; discriminate H3
      | eexists _, _; repeat split; first [eassumption | reflexivity] ].
Qed.

(** What one unload does, in the terms the session theorems need. *)
Lemma nexus_unload_summary (env : Env) (reg : option ExeManager) :
  fst (nexus_unload env (fresh reg)) = Ok tt
  /\ (In StopExe (trace (snd (nexus_unload env (fresh reg))))
      <-> reg <> None /\ env_lock_cleanup env = true).
Proof.
  destruct env as [ad cd mn li le [] [[]|se]], reg as [m|];
    (split; [reflexivity |]);
    rewrite <- occurs_In; vm_compute; intuition congruence.
Qed.

(** Over a load followed by an unload, [stop_exe] is called exactly when
    the load got as far as registering the manager (addon directory found
    and created, manager built), even if the load failed after that, and
    the unload's lock succeeds; the session never reports an error. *)
Theorem load_then_unload_stop (e1 e2 : Env) :
  fst (load_then_unload e1 e2) = Ok tt
  /\ (In StopExe (trace (snd (load_then_unload e1 e2)))
      <-> (exists d m, env_addon_dir e1 = Some d
                       /\ env_create_dir e1 = Ok tt
                       /\ env_manager_new e1 d = Ok m)
          /\ env_lock_cleanup e2 = true).
Proof.
  unfold load_then_unload, bind.
  destruct (nexus_load_summary e1 None) as (Hok & _ & _ & _ & _ & Hnostop).
  rewrite <- nexus_load_registers.
  destruct (nexus_load e1 (fresh None)) as [r1 [reg1 tr1]]; cbn [fst snd registry trace] in *.
  subst r1; cbv beta iota.
  rewrite frame_nexus_unload; cbn [fst snd registry trace]; fold (fresh reg1).
  destruct (nexus_unload_summary e2 reg1) as [Hok2 Hstop].
  rewrite Hok2; split; [reflexivity |].
  rewrite in_app_iff, Hstop; tauto.
Qed.

(** Running the load hook twice in one session never launches the
    executable or attaches twice, and keeps any manager the first load
    registered. *)
Theorem load_twice_no_duplicate_effects (e1 e2 : Env) :
  fst (load_twice e1 e2) = Ok tt
  /\ count_occ event_eq_dec (trace (snd (load_twice e1 e2))) LaunchExe <= 1
  /\ count_occ event_eq_dec (trace (snd (load_twice e1 e2))) Attach <= 1
  /\ (forall m, registry (snd (nexus_load e1 (fresh None))) = Some m ->
      registry (snd (load_twice e1 e2)) = Some m).
Proof.
  unfold load_twice, bind.
  destruct (nexus_load_summary e1 None) as (Hok1 & HL1 & HA1 & Hreg1 & _ & _).
  destruct (nexus_load e1 (fresh None)) as [r1 [reg1 tr1]]; cbn [fst snd registry trace] in *.
  subst r1; cbv beta iota.
  rewrite frame_nexus_load; cbn [fst snd registry trace]; fold (fresh reg1).
  destruct (nexus_load_summary e2 reg1) as (Hok2 & HL2 & HA2 & Hreg2 & Hkeep2 & _).
  rewrite Hok2; split; [reflexivity |].
  rewrite !count_occ_app.
  destruct reg1 as [m1|].
  - assert (Hz : count_occ event_eq_dec (trace (snd (nexus_load e2 (fresh (Some m1))))) LaunchExe
                 + count_occ event_eq_dec (trace (snd (nexus_load e2 (fresh (Some m1))))) Attach = 0).
    { destruct (Nat.eq_dec
                  (count_occ event_eq_dec (trace (snd (nexus_load e2 (fresh (Some m1))))) LaunchExe
                   + count_occ event_eq_dec (trace (snd (nexus_load e2 (fresh (Some m1))))) Attach) 0)
        as [Hz | Hz]; [exact Hz |].
      destruct (Hreg2 Hz) as [Hn _]; discriminate Hn. }
    split; [lia | split; [lia |]].
    intros m Hm; injection Hm as <-.
    rewrite frame_nexus_load; cbn [snd registry]; fold (fresh (Some m1)).
    apply Hkeep2; reflexivity.
  - assert (Hz : count_occ event_eq_dec tr1 LaunchExe + count_occ event_eq_dec tr1 Attach = 0).
    { destruct (Nat.eq_dec (count_occ event_eq_dec tr1 LaunchExe
                            + count_occ event_eq_dec tr1 Attach) 0) as [Hz | Hz]; [exact Hz |].
      destruct (Hreg1 Hz) as [_ Hn]; congruence. }
    split; [lia | split; [lia |]].
    intros m Hm; discriminate Hm.
Qed.
